(** * Go concurrency exercises: session cleaner and processing-time limiter

    A shallow embedding of [5-session-cleaner/main.go] (the in-memory
    session store and its background sweep) and of the ticker loop of
    [3-limit-service-time/main.go], with the properties of the store's
    design document stated against them.

    Modelling conventions.
    - A [time.Time] is a [Z]: nanoseconds since the Unix epoch, read in a
      zone whose offset is a whole number of minutes, so that [Second()]
      is the floor of the epoch seconds modulo 60.  One clock serves both
      the wall and the monotonic reading.
    - Go maps are [gmap]s; a missing bucket reads as the nil slice [[]].
    - Every method takes the clock reading it performs ([time.Now()]) as
      an argument and returns the new manager next to its Go results.
    - A critical section (the code between taking and releasing
      [m.mutex]) is one function.  Methods with two critical sections
      come in two pieces, which a scheduler may separate. *)

From stdpp Require Import gmap strings list fin_maps pretty.

Module SessionCleaner.

Local Open Scope Z_scope.

(** ** package time, package strconv *)

Definition Millisecond : Z := 1000000.
Definition Second : Z := 1000 * Millisecond.

(** [t.Add(d)] *)
Definition Time_Add (t d : Z) : Z := t + d.
(** [t.Before(u)] *)
Definition Time_Before (t u : Z) : bool := bool_decide (t < u).
(** [t.Second()]: the second offset within the minute, 0..59 *)
Definition Time_Second (t : Z) : Z := (t `div` Second) `mod` 60.
(** [strconv.Itoa] *)
Definition Itoa (i : Z) : string := pretty i.

Definition ttlSeconds : Z := 5.

(** ** errors *)

(** [ErrSessionNotFound] is the package's own error value; anything
    else is an error handed back by [MakeSessionID]. *)
Inductive error : Type :=
  | ErrSessionNotFound
  | ErrMakeSessionID (msg : string).

Section Store.

(** The dynamic type behind [interface{}]. *)
Context {V : Type}.

Record Session : Type := mkSession { Data : gmap string V }.

Record SessionManager : Type := mkSessionManager {
  sessions : gmap string Session;
  sessionExpirations : gmap string Z;
  expirationChecks : gmap string (list string)
}.

(** [NewSessionManager], without the goroutine it starts. *)
Definition NewSessionManager : SessionManager :=
  {| sessions := ∅; sessionExpirations := ∅; expirationChecks := ∅ |}.

(** [m.expirationChecks[key]]: the nil slice when the key is absent. *)
Definition bucket (m : SessionManager) (key : string) : list string :=
  default [] (expirationChecks m !! key).

Definition updateSessionExpiration
    (now : Z) (sessionID : string) (m : SessionManager) : SessionManager :=
  let expireAt := Time_Add now (ttlSeconds * Second) in
  let exps := <[sessionID := expireAt]> (sessionExpirations m) in
  let key := Itoa (Time_Second expireAt) in
  {| sessions := sessions m;
     sessionExpirations := exps;
     expirationChecks :=
       <[key := bucket m key ++ [sessionID]]> (expirationChecks m) |}.

(** [CreateSession].  [MakeSessionID] lives outside this file; its
    result [(sessionID, err)] is the argument [made]. *)
Definition CreateSession
    (made : string * option error) (now : Z) (m : SessionManager)
  : (string * option error) * SessionManager :=
  let '(sessionID, err) := made in
  match err with
  | Some e => (("", Some e), m)
  | None =>
      let m1 := {| sessions := <[sessionID := mkSession ∅]> (sessions m);
                   sessionExpirations := sessionExpirations m;
                   expirationChecks := expirationChecks m |} in
      ((sessionID, None), updateSessionExpiration now sessionID m1)
  end.

(** [GetSessionData]: the nil map is [None]. *)
Definition GetSessionData (sessionID : string) (m : SessionManager)
  : (option (gmap string V) * option error) * SessionManager :=
  match sessions m !! sessionID with
  | None => ((None, Some ErrSessionNotFound), m)
  | Some session => ((Some (Data session), None), m)
  end.

(** [UpdateSessionData], first critical section (read lock): is the
    session there? *)
Definition UpdateSessionData_check
    (sessionID : string) (m : SessionManager) : bool :=
  bool_decide (is_Some (sessions m !! sessionID)).

(** [UpdateSessionData], second critical section (write lock). *)
Definition UpdateSessionData_write
    (sessionID : string) (data : gmap string V) (now : Z)
    (m : SessionManager) : SessionManager :=
  let m1 := {| sessions := <[sessionID := mkSession data]> (sessions m);
               sessionExpirations := sessionExpirations m;
               expirationChecks := expirationChecks m |} in
  updateSessionExpiration now sessionID m1.

(** [UpdateSessionData] with nothing scheduled between its two
    critical sections. *)
Definition UpdateSessionData
    (sessionID : string) (data : gmap string V) (now : Z)
    (m : SessionManager) : option error * SessionManager :=
  if UpdateSessionData_check sessionID m
  then (None, UpdateSessionData_write sessionID data now m)
  else (Some ErrSessionNotFound, m).

(** One iteration of [removeExpiredSessionsWorker], first critical
    section (read lock): the loop that fills [expiredSessionIDs]. *)
Definition collect_step (now : Z) (exps : gmap string Z)
    (expiredSessionIDs : list string) (sID : string) : list string :=
  match exps !! sID with
  | Some exp =>
      let exp := Time_Add exp (-10 * Millisecond) in
      if Time_Before exp now then expiredSessionIDs ++ [sID]
      else expiredSessionIDs
  | None => expiredSessionIDs
  end.

Definition collectExpired (now : Z) (m : SessionManager) : list string :=
  let key := Itoa (Time_Second now) in
  foldl (collect_step now (sessionExpirations m)) [] (bucket m key).

(** Second critical section (write lock): the deletions. *)
Definition delete_step (m : SessionManager) (sID : string) : SessionManager :=
  {| sessions := delete sID (sessions m);
     sessionExpirations := delete sID (sessionExpirations m);
     expirationChecks := expirationChecks m |}.

Definition deleteExpired (now : Z) (expiredSessionIDs : list string)
    (m : SessionManager) : SessionManager :=
  let key := Itoa (Time_Second now) in
  let m1 := foldl delete_step m expiredSessionIDs in
  {| sessions := sessions m1;
     sessionExpirations := sessionExpirations m1;
     expirationChecks := delete key (expirationChecks m1) |}.

(** One tick of the worker with nothing scheduled between its two
    critical sections. *)
Definition sweep (now : Z) (m : SessionManager) : SessionManager :=
  deleteExpired now (collectExpired now m) m.

(** The worker over a run of ticks, oldest first. *)
Definition sweeps (ticks : list Z) (m : SessionManager) : SessionManager :=
  foldl (λ m now, sweep now m) m ticks.

(** A run of reads, as a client polling its sessions would issue. *)
Definition reads (sessionIDs : list string) (m : SessionManager)
  : SessionManager :=
  foldl (λ m sID, snd (GetSessionData sID m)) m sessionIDs.

(** The key sets of the session table and of the expiration index
    coincide. *)
Definition consistent (m : SessionManager) : Prop :=
  dom (sessions m) = dom (sessionExpirations m).

(** [sID] is filed in no bucket at all. *)
Definition unfiled (sID : string) (m : SessionManager) : Prop :=
  ∀ key, sID ∉ bucket m key.

(** ** The store under a scheduler

    The mutex makes every critical section atomic and nothing else.  A
    system state is the shared manager together with what the
    goroutines hold between two critical sections: the worker its
    [now] and [expiredSessionIDs], an updater that has passed its
    existence check its arguments. *)

Record System : Type := mkSystem {
  store : SessionManager;
  worker : option (Z * list string);
  updaters : list (string * gmap string V)
}.

Inductive action : Type :=
  | ACreate (made : string * option error) (now : Z)
  | AGet (sessionID : string)
  | AUpdateCheck (sessionID : string) (data : gmap string V)
  | AUpdateWrite (i : nat) (now : Z)
  | ACollect (now : Z)
  | ADelete.

Definition init : System :=
  {| store := NewSessionManager; worker := None; updaters := [] |}.

(** [None]: the action is not enabled in this state. *)
Definition step (a : action) (s : System) : option System :=
  match a with
  | ACreate made now =>
      Some {| store := snd (CreateSession made now (store s));
              worker := worker s; updaters := updaters s |}
  | AGet sessionID =>
      Some {| store := snd (GetSessionData sessionID (store s));
              worker := worker s; updaters := updaters s |}
  | AUpdateCheck sessionID data =>
      Some {| store := store s; worker := worker s;
              updaters :=
                if UpdateSessionData_check sessionID (store s)
                then updaters s ++ [(sessionID, data)]
                else updaters s |}
  | AUpdateWrite i now =>
      match updaters s !! i with
      | Some (sessionID, data) =>
          Some {| store :=
                    UpdateSessionData_write sessionID data now (store s);
                  worker := worker s;
                  updaters := delete i (updaters s) |}
      | None => None
      end
  | ACollect now =>
      match worker s with
      | None =>
          Some {| store := store s;
                  worker := Some (now, collectExpired now (store s));
                  updaters := updaters s |}
      | Some _ => None
      end
  | ADelete =>
      match worker s with
      | Some (now, expiredSessionIDs) =>
          Some {| store := deleteExpired now expiredSessionIDs (store s);
                  worker := None; updaters := updaters s |}
      | None => None
      end
  end.

Fixpoint exec (trace : list action) (s : System) : option System :=
  match trace with
  | [] => Some s
  | a :: trace =>
      match step a s with
      | Some s' => exec trace s'
      | None => None
      end
  end.

Definition reachable (s : System) : Prop :=
  ∃ trace, exec trace init = Some s.

End Store.

Arguments Session : clear implicits.
Arguments SessionManager : clear implicits.
Arguments System : clear implicits.
Arguments action : clear implicits.

(** ** Two schedules *)

(** A wall-clock instant with seconds component 20. *)
Definition t0 : Z := 1700000000 * Second.

(** The ticker was started at [t0 + 0.2 s]; tick [k] arrives [k]
    seconds later. *)
Definition tick_at (k : Z) : Z := t0 + 200 * Millisecond + k * Second.

(** A session created half a second after [t0], then five ticks. *)
Definition created_at : Z := t0 + 500 * Millisecond.

Definition after_create : SessionManager string :=
  snd (CreateSession ("s1"%string, None) created_at NewSessionManager).

Definition after_five_ticks : SessionManager string :=
  sweeps (tick_at <$> [1; 2; 3; 4; 5]) after_create.

(** A session created at [t0] and renewed while the worker is between
    its two critical sections. *)
Definition race_tick : Z := t0 + 5 * Second + 1 * Millisecond.
Definition race_renewal : Z := race_tick + 1000.

Definition race_trace : list (action string) :=
  [ ACreate ("s1"%string, None) t0;
    ACollect race_tick;
    AUpdateCheck "s1" {[ "website"%string := "longhoang.de"%string ]};
    AUpdateWrite 0 race_renewal;
    ADelete ].

End SessionCleaner.

(** * [3-limit-service-time]: the ticker goroutine of [HandleRequest] *)

Module LimitServiceTime.

Local Open Scope Z_scope.

Definition maxFreeProcessingTimeSeconds : Z := 10.

(** [int64] arithmetic wraps. *)
Definition wrap64 (z : Z) : Z := (z + 2 ^ 63) `mod` 2 ^ 64 - 2 ^ 63.

Record User : Type := mkUser {
  ID : Z;
  IsPremium : bool;
  TimeUsed : Z
}.

(** The body of [for range ticker.C] for one tick: the updated user,
    and whether the goroutine sent on [doneCh] and returned. *)
Definition tick (u : User) : User * bool :=
  let u := {| ID := ID u; IsPremium := IsPremium u;
              TimeUsed := wrap64 (TimeUsed u + 1) |} in
  if negb (IsPremium u)
     && bool_decide (maxFreeProcessingTimeSeconds - 1 <= TimeUsed u)
  then (u, true) else (u, false).

(** The ticker goroutine over the first [n] ticks. *)
Fixpoint tickerLoop (n : nat) (u : User) : User * bool :=
  match n with
  | O => (u, false)
  | S n =>
      let '(u', sent) := tick u in
      if sent then (u', true) else tickerLoop n u'
  end.

(** [HandleRequest] observed once the ticker has delivered [ticks]
    ticks.  [process] is the number of ticks handled before
    [process()] returns, [None] if it never does.  The result is what
    the function has returned by then, [None] while it is still blocked
    on [<-doneCh]; its only [return] statement is [return true]. *)
Definition HandleRequest (process : option nat) (ticks : nat) (u : User)
  : option bool * User :=
  let finished :=
    match process with
    | Some n => bool_decide (n ≤ ticks)%nat
    | None => false
    end in
  let horizon :=
    match process with
    | Some n => (n `min` ticks)%nat
    | None => ticks
    end in
  let '(u', killed) := tickerLoop horizon u in
  (if killed || finished then Some true else None, u').

(** Whether it was the ticker goroutine that sent on [doneCh]. *)
Definition killed (process : option nat) (ticks : nat) (u : User) : bool :=
  let horizon :=
    match process with
    | Some n => (n `min` ticks)%nat
    | None => ticks
    end in
  snd (tickerLoop horizon u).

End LimitServiceTime.

(** * Clients of the session store *)

Module SessionCleanerClient.

Import SessionCleaner.
Local Open Scope Z_scope.

Section Clients.

Context {V : Type}.

(** A client that keeps one session alive: each round is an
    [UpdateSessionData] with its clock reading and payload, followed by
    the worker's ticks up to the next round.  The errors of the updates
    are returned in order. *)
Fixpoint renewals (sessionID : string)
    (rounds : list (Z * gmap string V * list Z)) (m : SessionManager V)
  : list (option error) * SessionManager V :=
  match rounds with
  | [] => ([], m)
  | (now, data, ticks) :: rounds =>
      let '(err, m) := UpdateSessionData sessionID data now m in
      let '(errs, m) := renewals sessionID rounds (sweeps ticks m) in
      (err :: errs, m)
  end.

(** Every key of [expirationChecks] is the decimal string of a seconds
    value. *)
Definition keys_are_seconds (m : SessionManager V) : Prop :=
  ∀ key, is_Some (expirationChecks m !! key) →
         ∃ i, 0 <= i < 60 ∧ key = Itoa i.

End Clients.

(** What [main] hands to package [log]. *)
Inductive logline : Type :=
  | Fatal (err : error)
  | Println_created (sID : string)
  | Println_updated
  | Println_data (updatedData : option (gmap string string)).

(** [main].  [made] is the result of [MakeSessionID]; [now1] and
    [now2] are the clock readings of the two writes; [ticks1] and
    [ticks2] are the worker's ticks between the calls.  [log.Fatal]
    ends the program. *)
Definition main (made : string * option error)
    (now1 : Z) (ticks1 : list Z) (now2 : Z) (ticks2 : list Z)
  : list logline :=
  let m := NewSessionManager in
  let '((sID, err), m) := CreateSession made now1 m in
  match err with
  | Some e => [Fatal e]
  | None =>
      let m := sweeps ticks1 m in
      let data : gmap string string :=
        {[ "website"%string := "longhoang.de"%string ]} in
      let '(err, m) := UpdateSessionData sID data now2 m in
      match err with
      | Some e => [Println_created sID; Fatal e]
      | None =>
          let m := sweeps ticks2 m in
          let '((updatedData, err), m) := GetSessionData sID m in
          match err with
          | Some e => [Println_created sID; Println_updated; Fatal e]
          | None =>
              [Println_created sID; Println_updated;
               Println_data updatedData]
          end
      end
  end.

End SessionCleanerClient.

(** * [4-graceful-sigint]: the main goroutine and its signal channel

    [MockProcess] is not part of this file: what [Run] and [Stop] do in
    their own goroutines is outside the model, which follows [main]
    alone. *)

Module GracefulSigint.

(** Where the main goroutine stands: blocked on the first
    [<-shutdownSignal], blocked on the second, or gone through
    [os.Exit]. *)
Inductive position : Type :=
  | FirstReceive
  | SecondReceive
  | Exited (code : Z).

Record State : Type := mkState {
  pending : nat;      (* signals buffered in [shutdownSignal] *)
  at_ : position;
  stops : nat;        (* goroutines started by [go proc.Stop()] *)
  printed : bool      (* "Killing process!" written *)
}.

(** [make(chan os.Signal, 2)] *)
Definition capacity : nat := 2.

Definition start : State :=
  {| pending := 0; at_ := FirstReceive; stops := 0; printed := false |}.

(** What can happen: a SIGINT reaches the process, or the scheduler
    runs the main goroutine. *)
Inductive event : Type :=
  | Sigint
  | Main.

(** Package [signal] sends without blocking: a signal that finds the
    channel full is dropped.  A receive on the empty channel leaves the
    main goroutine where it is. *)
Definition step (s : State) (e : event) : State :=
  match at_ s with
  | Exited _ => s
  | FirstReceive =>
      match e with
      | Sigint =>
          if bool_decide (pending s < capacity)
          then {| pending := S (pending s); at_ := at_ s;
                  stops := stops s; printed := printed s |}
          else s
      | Main =>
          match pending s with
          | O => s
          | S n => {| pending := n; at_ := SecondReceive;
                      stops := S (stops s); printed := printed s |}
          end
      end
  | SecondReceive =>
      match e with
      | Sigint =>
          if bool_decide (pending s < capacity)
          then {| pending := S (pending s); at_ := at_ s;
                  stops := stops s; printed := printed s |}
          else s
      | Main =>
          match pending s with
          | O => s
          | S n => {| pending := n; at_ := Exited 1;
                      stops := stops s; printed := true |}
          end
      end
  end.

Definition run (events : list event) (s : State) : State :=
  foldl step s events.

(** How many of the events are SIGINTs, how many are turns of main. *)
Fixpoint sigints (events : list event) : nat :=
  match events with
  | [] => 0
  | Sigint :: events => S (sigints events)
  | Main :: events => sigints events
  end.

Fixpoint turns (events : list event) : nat :=
  match events with
  | [] => 0
  | Sigint :: events => turns events
  | Main :: events => S (turns events)
  end.

(** Signals the main goroutine has received so far. *)
Definition received (p : position) : nat :=
  match p with
  | FirstReceive => 0
  | SecondReceive => 1
  | Exited _ => 2
  end.

(** What holds of every state the program can be in. *)
Definition sound (s : State) : Prop :=
  pending s ≤ capacity ∧
  stops s = match at_ s with FirstReceive => 0 | _ => 1 end ∧
  (printed s = true ↔ received (at_ s) = 2) ∧
  (∀ code, at_ s = Exited code → code = 1%Z).

End GracefulSigint.

(** * Properties of the session store *)

Module SessionCleanerProofs.

Import SessionCleaner.
Local Open Scope Z_scope.

Section StoreFacts.

Context {V : Type}.
Implicit Types (m : SessionManager V) (sID key : string) (now : Z).

(** ** Clock and bucket keys *)

Lemma Time_Second_range (t : Z) : 0 <= Time_Second t < 60.
Proof. unfold Time_Second. apply Z.mod_pos_bound. lia. Qed.

Lemma Time_Second_minute (t : Z) :
  Time_Second (t + 60 * Second) = Time_Second t.
Proof.
  unfold Time_Second.
  rewrite Z.div_add by (unfold Second, Millisecond; lia).
  replace (t `div` Second + 60) with (t `div` Second + 1 * 60) by lia.
  apply Z.mod_add. lia.
Qed.

Lemma Itoa_inj (i j : Z) : Itoa i = Itoa j → i = j.
Proof. unfold Itoa. apply (inj pretty). Qed.

Example Itoa_seconds :
  Itoa 0 = "0"%string ∧ Itoa 7 = "7"%string ∧ Itoa 59 = "59"%string ∧
  Itoa (Time_Second (t0 + 5500 * Millisecond)) = "25"%string.
Proof. split_and!; vm_compute; reflexivity. Qed.

(** ** [updateSessionExpiration] *)

Lemma updateSessionExpiration_bucket now sID m key :
  bucket (updateSessionExpiration now sID m) key =
  if decide (key = Itoa (Time_Second (now + ttlSeconds * Second)))
  then bucket m key ++ [sID] else bucket m key.
Proof.
  unfold updateSessionExpiration, bucket, Time_Add; simpl.
  case_decide as Hk.
  - subst key. by rewrite lookup_insert_eq.
  - by rewrite lookup_insert_ne.
Qed.

Lemma updateSessionExpiration_prefix now sID m key :
  bucket m key `prefix_of` bucket (updateSessionExpiration now sID m) key.
Proof.
  rewrite updateSessionExpiration_bucket. case_decide; [|done].
  by apply prefix_app_r.
Qed.

(** ** The collection loop *)

Lemma collect_foldl now (exps : gmap string Z) (l acc : list string) sID :
  sID ∈ foldl (collect_step now exps) acc l ↔
  sID ∈ acc ∨
  (sID ∈ l ∧ ∃ exp, exps !! sID = Some exp ∧ exp - 10 * Millisecond < now).
Proof.
  revert acc. induction l as [|x l IH]; intros acc; simpl.
  - split; [by left|]. intros [?|[Hin _]]; [done|]. by apply elem_of_nil in Hin.
  - rewrite IH. unfold collect_step, Time_Before, Time_Add.
    destruct (exps !! x) as [exp|] eqn:Hx.
    + case_bool_decide as Hlt.
      * rewrite elem_of_app, list_elem_of_singleton, elem_of_cons.
        split.
        -- intros [[?| ->]|[? ?]]; [by left| |by right; split; [right|]].
           right. split; [by left|]. exists exp. split; [done|lia].
        -- intros [?|[[->|?] ?]]; [by left; left|by left; right|by right].
      * rewrite elem_of_cons. split.
        -- intros [?|[? ?]]; [by left|by right; split; [right|]].
        -- intros [?|[[->|?] Hex]]; [by left| |by right].
           destruct Hex as (exp' & Hexp' & Hlt'). rewrite Hx in Hexp'.
           simplify_eq. lia.
    + rewrite elem_of_cons. split.
      * intros [?|[? ?]]; [by left|by right; split; [right|]].
      * intros [?|[[->|?] Hex]]; [by left| |by right].
        destruct Hex as (exp' & Hexp' & _). by rewrite Hx in Hexp'.
Qed.

Lemma elem_of_collectExpired now m sID :
  sID ∈ collectExpired now m ↔
  sID ∈ bucket m (Itoa (Time_Second now)) ∧
  ∃ exp, sessionExpirations m !! sID = Some exp ∧
         exp - 10 * Millisecond < now.
Proof.
  unfold collectExpired. rewrite collect_foldl. split.
  - intros [Hin|?]; [by apply elem_of_nil in Hin|done].
  - by right.
Qed.

(** ** The deletion loop *)

Lemma delete_loop_checks (ids : list string) m :
  expirationChecks (foldl delete_step m ids) = expirationChecks m.
Proof. revert m. induction ids as [|x ids IH]; intros m; [done|]. simpl. by rewrite IH. Qed.

Lemma delete_loop_sessions (ids : list string) m sID :
  sessions (foldl delete_step m ids) !! sID =
  if decide (sID ∈ ids) then None else sessions m !! sID.
Proof.
  revert m. induction ids as [|x ids IH]; intros m.
  - rewrite decide_False; [done|]. apply not_elem_of_nil.
  - cbn [foldl]. rewrite IH. cbn [delete_step sessions].
    destruct (decide (sID = x)) as [->|Hne].
    + rewrite lookup_delete_eq, (decide_True (P := x ∈ x :: ids)).
      * by destruct (decide (x ∈ ids)).
      * by left.
    + rewrite lookup_delete_ne by done.
      destruct (decide (sID ∈ ids)) as [Hin|Hin].
      * rewrite decide_True; [done|]. by right.
      * rewrite decide_False; [done|]. intros [?|?]%elem_of_cons; done.
Qed.

Lemma delete_loop_expirations (ids : list string) m sID :
  sessionExpirations (foldl delete_step m ids) !! sID =
  if decide (sID ∈ ids) then None else sessionExpirations m !! sID.
Proof.
  revert m. induction ids as [|x ids IH]; intros m.
  - rewrite decide_False; [done|]. apply not_elem_of_nil.
  - cbn [foldl]. rewrite IH. cbn [delete_step sessionExpirations].
    destruct (decide (sID = x)) as [->|Hne].
    + rewrite lookup_delete_eq, (decide_True (P := x ∈ x :: ids)).
      * by destruct (decide (x ∈ ids)).
      * by left.
    + rewrite lookup_delete_ne by done.
      destruct (decide (sID ∈ ids)) as [Hin|Hin].
      * rewrite decide_True; [done|]. by right.
      * rewrite decide_False; [done|]. intros [?|?]%elem_of_cons; done.
Qed.

Lemma deleteExpired_sessions now (ids : list string) m sID :
  sessions (deleteExpired now ids m) !! sID =
  if decide (sID ∈ ids) then None else sessions m !! sID.
Proof. unfold deleteExpired; simpl. apply delete_loop_sessions. Qed.

Lemma deleteExpired_expirations now (ids : list string) m sID :
  sessionExpirations (deleteExpired now ids m) !! sID =
  if decide (sID ∈ ids) then None else sessionExpirations m !! sID.
Proof. unfold deleteExpired; simpl. apply delete_loop_expirations. Qed.

Lemma deleteExpired_checks now (ids : list string) m :
  expirationChecks (deleteExpired now ids m) =
  delete (Itoa (Time_Second now)) (expirationChecks m).
Proof. unfold deleteExpired; simpl. by rewrite delete_loop_checks. Qed.

(** ** Consistency of the two key sets *)

Lemma NewSessionManager_consistent : consistent (@NewSessionManager V).
Proof. unfold consistent; simpl. by rewrite !dom_empty_L. Qed.

Lemma CreateSession_consistent made now m :
  consistent m → consistent (snd (CreateSession made now m)).
Proof.
  unfold consistent. intros Hm. destruct made as [sID [e|]]; simpl; [done|].
  rewrite !dom_insert_L. by rewrite Hm.
Qed.

Lemma UpdateSessionData_write_consistent sID (data : gmap string V) now m :
  consistent m → consistent (UpdateSessionData_write sID data now m).
Proof.
  unfold consistent, UpdateSessionData_write. intros Hm; simpl.
  rewrite !dom_insert_L. by rewrite Hm.
Qed.

Lemma UpdateSessionData_consistent sID (data : gmap string V) now m :
  consistent m → consistent (snd (UpdateSessionData sID data now m)).
Proof.
  intros Hm. unfold UpdateSessionData.
  destruct (UpdateSessionData_check sID m); simpl; [|done].
  by apply UpdateSessionData_write_consistent.
Qed.

Lemma GetSessionData_unchanged sID m : snd (GetSessionData sID m) = m.
Proof. unfold GetSessionData. by destruct (sessions m !! sID). Qed.

Lemma deleteExpired_consistent now (ids : list string) m :
  consistent m → consistent (deleteExpired now ids m).
Proof.
  unfold consistent, deleteExpired; simpl.
  revert m. induction ids as [|x ids IH]; intros m Hm; [done|].
  cbn [foldl]. apply IH. cbn [delete_step sessions sessionExpirations].
  rewrite !dom_delete_L. by rewrite Hm.
Qed.

Lemma sweep_consistent now m : consistent m → consistent (sweep now m).
Proof. apply deleteExpired_consistent. Qed.

Lemma step_consistent (a : action V) (s s' : System V) :
  step a s = Some s' → consistent (store s) → consistent (store s').
Proof.
  destruct a as [made now|sID|sID data|i now|now|]; simpl; intros Hs Hm.
  - injection Hs as <-. by apply CreateSession_consistent.
  - injection Hs as <-. simpl. by rewrite GetSessionData_unchanged.
  - by injection Hs as <-.
  - destruct (updaters s !! i) as [[sID data]|]; [|done].
    injection Hs as <-. by apply UpdateSessionData_write_consistent.
  - destruct (worker s); [done|]. by injection Hs as <-.
  - destruct (worker s) as [[now ids]|]; [|done].
    injection Hs as <-. by apply deleteExpired_consistent.
Qed.

Lemma exec_consistent (trace : list (action V)) (s s' : System V) :
  exec trace s = Some s' → consistent (store s) → consistent (store s').
Proof.
  revert s. induction trace as [|a trace IH]; intros s; simpl.
  - by intros [= <-].
  - destruct (step a s) as [s1|] eqn:Hstep; [|done].
    intros Hex Hm. eapply IH; [done|]. by eapply step_consistent.
Qed.

(** Under every schedule of critical sections, the session table and
    the expiration index have the same keys. *)
Theorem reachable_consistent (s : System V) :
  reachable s → consistent (store s).
Proof.
  intros [trace Hex]. eapply exec_consistent; [done|].
  apply NewSessionManager_consistent.
Qed.

(** ** The claims about single operations *)

(** C3. A successful [UpdateSessionData] stores exactly the new payload
    (a following read returns it, nothing of the old payload is kept),
    sets the index entry to now + TTL, appends the ID to the bucket of
    the new expiration's seconds slot, and leaves every earlier bucket
    entry where it was. *)
Theorem UpdateSessionData_replaces_and_renews
    sID (data : gmap string V) now m :
  is_Some (sessions m !! sID) →
  let expireAt := now + ttlSeconds * Second in
  let key := Itoa (Time_Second expireAt) in
  let m' := snd (UpdateSessionData sID data now m) in
  fst (UpdateSessionData sID data now m) = None ∧
  sessions m' !! sID = Some (mkSession data) ∧
  fst (GetSessionData sID m') = (Some data, None) ∧
  sessionExpirations m' !! sID = Some expireAt ∧
  bucket m' key = bucket m key ++ [sID] ∧
  (∀ k, k ≠ key → bucket m' k = bucket m k) ∧
  (∀ k, bucket m k `prefix_of` bucket m' k).
Proof.
  intros Hin expireAt key m'. subst m'. unfold UpdateSessionData.
  unfold UpdateSessionData_check. rewrite bool_decide_eq_true_2 by done.
  cbn [fst snd]. unfold UpdateSessionData_write.
  split_and!; [done| | | | | |].
  - simpl. by rewrite lookup_insert_eq.
  - unfold GetSessionData; simpl. by rewrite lookup_insert_eq.
  - simpl. by rewrite lookup_insert_eq.
  - rewrite updateSessionExpiration_bucket. by rewrite decide_True.
  - intros k Hk. rewrite updateSessionExpiration_bucket.
    by rewrite decide_False.
  - intros k. rewrite updateSessionExpiration_bucket.
    unfold bucket; simpl. case_decide; [|done]. by apply prefix_app_r.
Qed.

(** C4. [GetSessionData] and [UpdateSessionData] return
    [ErrSessionNotFound] exactly when the ID is absent from [sessions];
    when it is present the read returns the stored payload and no
    error, and the update returns no error. *)
Theorem SessionNotFound_iff_absent sID (data : gmap string V) now m :
  (snd (fst (GetSessionData sID m)) = Some ErrSessionNotFound ↔
     sessions m !! sID = None) ∧
  (fst (UpdateSessionData sID data now m) = Some ErrSessionNotFound ↔
     sessions m !! sID = None) ∧
  (∀ session, sessions m !! sID = Some session →
     fst (GetSessionData sID m) = (Some (Data session), None) ∧
     fst (UpdateSessionData sID data now m) = None).
Proof.
  unfold GetSessionData, UpdateSessionData, UpdateSessionData_check.
  destruct (sessions m !! sID) as [session|] eqn:Hs.
  - rewrite bool_decide_eq_true_2 by eauto. simpl.
    split_and!; [done|done|]. by intros ? [= <-].
  - rewrite bool_decide_eq_false_2 by (by intros [? ?]). simpl.
    split_and!; done.
Qed.

(** C5. When identifier generation fails, [CreateSession] returns the
    error with the empty ID and the manager is untouched; when it
    succeeds, the new ID maps to an empty payload, the index holds
    now + TTL for it, it is appended to that expiration's bucket, and
    the ID is returned without error. *)
Theorem CreateSession_failure_and_success sID (e : error) now m :
  CreateSession (sID, Some e) now m = (("", Some e), m) ∧
  let expireAt := now + ttlSeconds * Second in
  let key := Itoa (Time_Second expireAt) in
  let m' := snd (CreateSession (sID, None) now m) in
  fst (CreateSession (sID, None) now m) = (sID, None) ∧
  sessions m' = <[sID := mkSession ∅]> (sessions m) ∧
  fst (GetSessionData sID m') = (Some ∅, None) ∧
  sessionExpirations m' = <[sID := expireAt]> (sessionExpirations m) ∧
  bucket m' key = bucket m key ++ [sID].
Proof.
  split; [done|]. intros expireAt key m'. subst m'. simpl.
  split_and!; try done.
  - unfold GetSessionData; simpl. by rewrite lookup_insert_eq.
  - rewrite updateSessionExpiration_bucket. simpl. by rewrite decide_True.
Qed.

(** C6. [GetSessionData] returns the manager it was given: sessions,
    index and buckets are unchanged, so any run of reads before a run
    of sweeps leaves the sweeps' outcome as it would have been. *)
Theorem GetSessionData_frame sID m :
  snd (GetSessionData sID m) = m ∧
  ∀ (polled : list string) (ticks : list Z),
    sweeps ticks (reads polled m) = sweeps ticks m.
Proof.
  split; [apply GetSessionData_unchanged|].
  intros polled ticks. f_equal. revert m.
  induction polled as [|x polled IH]; intros m; [done|].
  unfold reads in *. cbn [foldl]. by rewrite GetSessionData_unchanged.
Qed.

(** C7. [CreateSession], [UpdateSessionData], [GetSessionData] and one
    sweep each keep the key set of [sessions] equal to the key set of
    [sessionExpirations]. *)
Theorem operations_preserve_consistent
    m (made : string * option error) sID (data : gmap string V) now :
  consistent m →
  consistent (snd (CreateSession made now m)) ∧
  consistent (snd (UpdateSessionData sID data now m)) ∧
  consistent (snd (GetSessionData sID m)) ∧
  consistent (sweep now m).
Proof.
  intros Hm. split_and!.
  - by apply CreateSession_consistent.
  - by apply UpdateSessionData_consistent.
  - by rewrite GetSessionData_unchanged.
  - by apply sweep_consistent.
Qed.

(** C8. A sweep at [now] deletes every ID it confirmed stale (filed in
    the bucket of [now]'s key with an index entry older than now + 10
    ms) from both [sessions] and [sessionExpirations], keeps every
    other session and index entry, and removes the whole bucket of that
    key, whatever was filed in it; the other buckets stay. *)
Theorem sweep_deletes_confirmed_and_drops_bucket now m :
  let key := Itoa (Time_Second now) in
  let m' := sweep now m in
  (∀ sID, sID ∈ collectExpired now m ↔
     sID ∈ bucket m key ∧
     ∃ exp, sessionExpirations m !! sID = Some exp ∧
            exp - 10 * Millisecond < now) ∧
  (∀ sID, sID ∈ collectExpired now m →
     sessions m' !! sID = None ∧ sessionExpirations m' !! sID = None) ∧
  (∀ sID, sID ∉ collectExpired now m →
     sessions m' !! sID = sessions m !! sID ∧
     sessionExpirations m' !! sID = sessionExpirations m !! sID) ∧
  expirationChecks m' !! key = None ∧
  bucket m' key = [] ∧
  (∀ k, k ≠ key → expirationChecks m' !! k = expirationChecks m !! k).
Proof.
  intros key m'. subst m'. unfold sweep. split_and!.
  - intros sID. apply elem_of_collectExpired.
  - intros sID Hin.
    rewrite deleteExpired_sessions, deleteExpired_expirations.
    by rewrite !decide_True.
  - intros sID Hin.
    rewrite deleteExpired_sessions, deleteExpired_expirations.
    by rewrite !decide_False.
  - rewrite deleteExpired_checks. apply lookup_delete_eq.
  - unfold bucket. rewrite deleteExpired_checks. by rewrite lookup_delete_eq.
  - intros k Hk. rewrite deleteExpired_checks. by rewrite lookup_delete_ne.
Qed.

(** C9. The bucket key is the decimal string of the 0..59 seconds
    component alone: two instants get the same key exactly when their
    seconds components agree, instants 60 s apart always do, and two
    sessions whose expirations are a minute apart are filed in one
    bucket. *)
Theorem bucket_key_minute_aliasing (t : Z) :
  0 <= Time_Second t < 60 ∧
  (∀ u, Itoa (Time_Second t) = Itoa (Time_Second u) ↔
        Time_Second t = Time_Second u) ∧
  Itoa (Time_Second (t + 60 * Second)) = Itoa (Time_Second t) ∧
  ∀ m (s1 s2 : string),
    let m' := updateSessionExpiration (t + 60 * Second) s2
                (updateSessionExpiration t s1 m) in
    let key := Itoa (Time_Second (t + ttlSeconds * Second)) in
    s1 ∈ bucket m' key ∧ s2 ∈ bucket m' key.
Proof.
  split; [|split; [|split]].
  - apply Time_Second_range.
  - intros u. split; [apply Itoa_inj|by intros ->].
  - by rewrite Time_Second_minute.
  - intros m s1 s2 m' key. subst m' key.
    rewrite !updateSessionExpiration_bucket.
    replace (t + 60 * Second + ttlSeconds * Second)
      with (t + ttlSeconds * Second + 60 * Second) by lia.
    rewrite Time_Second_minute, !decide_True by done.
    rewrite !elem_of_app, !list_elem_of_singleton. auto.
Qed.

(** ** Sessions that no bucket mentions *)

Lemma sweep_keeps_unfiled now m sID :
  unfiled sID m →
  sessions (sweep now m) !! sID = sessions m !! sID ∧
  sessionExpirations (sweep now m) !! sID = sessionExpirations m !! sID ∧
  unfiled sID (sweep now m).
Proof.
  intros Hun.
  assert (sID ∉ collectExpired now m) as Hout.
  { rewrite elem_of_collectExpired. intros [Hin _]. by eapply Hun. }
  unfold sweep.
  rewrite deleteExpired_sessions, deleteExpired_expirations.
  rewrite !decide_False by done. split_and!; [done|done|].
  intros key. unfold bucket. rewrite deleteExpired_checks.
  destruct (decide (key = Itoa (Time_Second now))) as [->|Hne].
  - rewrite lookup_delete_eq. apply not_elem_of_nil.
  - rewrite lookup_delete_ne by done. apply Hun.
Qed.

(** Once the bucket that named a session is gone, no later tick, at
    whatever instant, removes the session. *)
Lemma sweeps_keep_unfiled (ticks : list Z) m sID :
  unfiled sID m →
  sessions (sweeps ticks m) !! sID = sessions m !! sID ∧
  sessionExpirations (sweeps ticks m) !! sID = sessionExpirations m !! sID.
Proof.
  revert m. induction ticks as [|now ticks IH]; intros m Hun; [done|].
  unfold sweeps in *. cbn [foldl].
  destruct (sweep_keeps_unfiled now m sID Hun) as (Hs & He & Hun').
  destruct (IH _ Hun') as [-> ->]. by rewrite Hs, He.
Qed.

(** A sweep that runs its two critical sections back to back deletes
    no session whose index entry is now + 10 ms or later. *)
Lemma sweep_keeps_unexpired now m sID exp :
  sessionExpirations m !! sID = Some exp →
  now + 10 * Millisecond <= exp →
  sessions (sweep now m) !! sID = sessions m !! sID ∧
  sessionExpirations (sweep now m) !! sID = Some exp.
Proof.
  intros Hexp Hle.
  assert (sID ∉ collectExpired now m) as Hout.
  { rewrite elem_of_collectExpired. intros (_ & exp' & Hexp' & Hlt).
    rewrite Hexp in Hexp'. simplify_eq. lia. }
  unfold sweep.
  rewrite deleteExpired_sessions, deleteExpired_expirations.
  by rewrite !decide_False.
Qed.

End StoreFacts.

(** ** Instances *)

Lemma UpdateSessionData_replaces_and_renews_witness :
  is_Some (sessions after_create !! "s1"%string) ∧
  fst (UpdateSessionData "s1" {[ "k"%string := "v"%string ]}
         race_tick after_create) = None.
Proof.
  assert (is_Some (sessions after_create !! "s1"%string)) as Hin
    by (vm_compute; eexists; reflexivity).
  split; [exact Hin|].
  exact (proj1 (UpdateSessionData_replaces_and_renews
                  "s1" {[ "k"%string := "v"%string ]}
                  race_tick after_create Hin)).
Defined.

Lemma operations_preserve_consistent_witness :
  consistent after_create ∧
  consistent (sweep (created_at + 5 * Second) after_create).
Proof.
  assert (consistent after_create) as Hm by (vm_compute; reflexivity).
  split; [exact Hm|].
  exact (proj2 (proj2 (proj2
    (operations_preserve_consistent after_create ("s2"%string, None)
       "s1" ∅ (created_at + 5 * Second) Hm)))).
Defined.

(** ** The two schedules *)

(** The comparison in the collection loop carries a 10 ms allowance: a
    tick that falls 5 ms before the expiration already deletes. *)
Example sweep_allowance :
  sessionExpirations after_create !! "s1"%string
    = Some (created_at + ttlSeconds * Second) ∧
  fst (GetSessionData "s1"
         (sweep (created_at + ttlSeconds * Second - 5 * Millisecond)
            after_create))
    = (None, Some ErrSessionNotFound).
Proof. split; vm_compute; reflexivity. Qed.

Lemma after_five_ticks_unfiled : unfiled "s1" after_five_ticks.
Proof.
  intros key. unfold bucket.
  replace (expirationChecks after_five_ticks) with
    (∅ : gmap string (list string)) by (vm_compute; reflexivity).
  rewrite lookup_empty. apply not_elem_of_nil.
Qed.

(** C1. Evaluation of the store on a session created at T = t0 + 0.5 s
    under a ticker of phase 0.2 s.  The session expires at T + 5 s and
    is filed under key 25.  The tick of second 25 comes at t0 + 5.2 s,
    0.3 s before the expiration: it finds nothing stale and drops the
    bucket.  From then on no bucket names the session, and after any
    further ticks (those of T + 5 s .. T + 7 s among them) it is still
    in both maps and still readable. *)
Theorem session_outlives_expiration_window (later : list Z) :
  fst (CreateSession ("s1"%string, None) created_at
         (@NewSessionManager string)) = ("s1"%string, None) ∧
  sessionExpirations after_create !! "s1"%string
    = Some (created_at + ttlSeconds * Second) ∧
  bucket after_create (Itoa 25) = ["s1"%string] ∧
  Itoa (Time_Second (tick_at 5)) = Itoa 25 ∧
  collectExpired (tick_at 5) (sweeps (tick_at <$> [1; 2; 3; 4]) after_create)
    = [] ∧
  expirationChecks after_five_ticks = ∅ ∧
  sessionExpirations (sweeps later after_five_ticks) !! "s1"%string
    = Some (created_at + ttlSeconds * Second) ∧
  fst (GetSessionData "s1" (sweeps later after_five_ticks))
    = (Some ∅, None).
Proof.
  destruct (sweeps_keep_unfiled later _ _ after_five_ticks_unfiled)
    as [Hs He].
  assert (sessions after_five_ticks !! "s1"%string = Some (mkSession ∅))
    as Hlive by (vm_compute; reflexivity).
  unfold GetSessionData. rewrite Hs, He, Hlive. cbn [fst Data].
  clear Hs He Hlive later.
  split_and!; vm_compute; reflexivity.
Qed.

(** C2. Evaluation of the store on the schedule [race_trace]: the
    worker collects "s1" at its tick, an update then renews the
    session to five seconds past that tick, and the worker's deletion
    loop, which consults only the list it collected, removes the
    session all the same. *)
Theorem renewed_session_deleted_by_sweep :
  ∃ renewed swept : System string,
    exec (take 4 race_trace) init = Some renewed ∧
    worker renewed = Some (race_tick, ["s1"%string]) ∧
    fst (GetSessionData "s1" (store renewed))
      = (Some {[ "website"%string := "longhoang.de"%string ]}, None) ∧
    sessionExpirations (store renewed) !! "s1"%string
      = Some (race_renewal + ttlSeconds * Second) ∧
    race_tick + 10 * Millisecond < race_renewal + ttlSeconds * Second ∧
    step ADelete renewed = Some swept ∧
    exec race_trace init = Some swept ∧
    sessions (store swept) !! "s1"%string = None ∧
    sessionExpirations (store swept) !! "s1"%string = None ∧
    fst (GetSessionData "s1" (store swept))
      = (None, Some ErrSessionNotFound).
Proof.
  eexists _, _. split; [vm_compute; reflexivity|].
  split_and!; try (vm_compute; reflexivity).
Qed.

End SessionCleanerProofs.

(** * Properties of [HandleRequest] *)

Module LimitServiceTimeProofs.

Import LimitServiceTime.
Local Open Scope Z_scope.

Lemma wrap64_small (z : Z) : - 2 ^ 63 <= z < 2 ^ 63 → wrap64 z = z.
Proof. intros Hz. unfold wrap64. rewrite Z.mod_small; lia. Qed.

Lemma tick_cutoff (u : User) :
  snd (tick u) = true ↔
  IsPremium u = false ∧
  maxFreeProcessingTimeSeconds - 1 <= wrap64 (TimeUsed u + 1).
Proof.
  unfold tick; simpl. destruct (IsPremium u); simpl.
  - split; [done|]. by intros [? _].
  - case_bool_decide; simpl; split; try done. by intros [_ ?].
Qed.

(** A free user still under the budget is not cut off while the
    running total stays below 9 ... *)
Lemma tickerLoop_below (n : nat) (u : User) :
  IsPremium u = false → 0 <= TimeUsed u →
  TimeUsed u + Z.of_nat n < maxFreeProcessingTimeSeconds - 1 →
  tickerLoop n u = (mkUser (ID u) false (TimeUsed u + Z.of_nat n), false).
Proof.
  revert u. induction n as [|n IH]; intros [id p used]; simpl;
    intros -> Hlo Hhi.
  - by rewrite Z.add_0_r.
  - unfold tick at 1; simpl. unfold maxFreeProcessingTimeSeconds in *.
    rewrite wrap64_small by lia.
    rewrite bool_decide_eq_false_2 by lia.
    rewrite IH; simpl; [|done|lia|unfold maxFreeProcessingTimeSeconds; lia].
    do 2 f_equal. lia.
Qed.

(** ... and is cut off by the tick that brings the total to 9. *)
Lemma tickerLoop_cutoff (n : nat) (u : User) :
  IsPremium u = false → 0 <= TimeUsed u →
  TimeUsed u + Z.of_nat n = maxFreeProcessingTimeSeconds - 1 →
  (0 < n)%nat →
  tickerLoop n u
  = (mkUser (ID u) false (maxFreeProcessingTimeSeconds - 1), true).
Proof.
  intros Hp Hlo Hsum Hn. destruct n as [|n]; [lia|].
  replace (S n) with (n + 1)%nat by lia.
  assert (∀ k v, tickerLoop (k + 1) v =
                 let '(v', sent) := tickerLoop k v in
                 if sent then (v', true) else tick v') as Hsnoc.
  { induction k as [|k IHk]; intros v; simpl.
    - by destruct (tick v) as [v' []].
    - destruct (tick v) as [v' []]; [done|]. apply IHk. }
  rewrite Hsnoc, tickerLoop_below by (done || lia).
  unfold tick; simpl. unfold maxFreeProcessingTimeSeconds in *.
  rewrite wrap64_small by lia.
  rewrite bool_decide_eq_true_2 by lia. do 2 f_equal. lia.
Qed.

Lemma HandleRequest_result (process : option nat) (ticks : nat) (u : User) :
  fst (HandleRequest process ticks u)
  = if killed process ticks u
       || match process with
          | Some n => bool_decide (n ≤ ticks)%nat
          | None => false
          end
    then Some true else None.
Proof.
  unfold HandleRequest, killed.
  by destruct (tickerLoop _ u) as [u' k].
Qed.

(** C10. Whatever [HandleRequest] returns is [true]: also when the
    ticker goroutine ended the wait because a free user ran out of
    budget, and whenever the process itself finished.  The cutoff test
    succeeds exactly for a free user whose incremented [TimeUsed] is at
    least 10 - 1: a fresh free user whose process never ends is still
    waiting after 8 ticks and is released, with [true], by the ninth,
    at [TimeUsed] 9. *)
Theorem HandleRequest_returns_true
    (process : option nat) (ticks : nat) (u : User) :
  (fst (HandleRequest process ticks u) = Some true ∨
   fst (HandleRequest process ticks u) = None) ∧
  (killed process ticks u = true →
   fst (HandleRequest process ticks u) = Some true) ∧
  (∀ n k : nat, fst (HandleRequest (Some n) (n + k) u) = Some true) ∧
  (snd (tick u) = true ↔
   IsPremium u = false ∧
   maxFreeProcessingTimeSeconds - 1 <= wrap64 (TimeUsed u + 1)) ∧
  maxFreeProcessingTimeSeconds - 1 = 9 ∧
  let fresh := mkUser (ID u) false 0 in
  HandleRequest None 8 fresh = (None, mkUser (ID u) false 8) ∧
  killed None 8 fresh = false ∧
  HandleRequest None 9 fresh = (Some true, mkUser (ID u) false 9) ∧
  killed None 9 fresh = true.
Proof.
  split_and!.
  - rewrite HandleRequest_result. destruct (_ || _); auto.
  - intros Hk. by rewrite HandleRequest_result, Hk.
  - intros n k. rewrite HandleRequest_result.
    rewrite (bool_decide_eq_true_2 (n ≤ n + k)%nat) by lia.
    by rewrite orb_true_r.
  - apply tick_cutoff.
  - done.
  - intros fresh. subst fresh. split_and!; vm_compute; reflexivity.
Qed.

End LimitServiceTimeProofs.

(** * Further properties of the session store *)

Module SessionCleanerMore.

Import SessionCleaner SessionCleanerClient SessionCleanerProofs.
Local Open Scope Z_scope.

Section More.

Context {V : Type}.
Implicit Types (m : SessionManager V) (sID key : string) (now : Z).

Lemma manager_eq m m' :
  sessions m = sessions m' →
  sessionExpirations m = sessionExpirations m' →
  expirationChecks m = expirationChecks m' →
  m = m'.
Proof. destruct m, m'; simpl. by intros -> -> ->. Qed.

Lemma sweep_bucket now m key :
  bucket (sweep now m) key =
  if decide (key = Itoa (Time_Second now)) then [] else bucket m key.
Proof.
  unfold bucket, sweep. rewrite deleteExpired_checks.
  case_decide as Hk.
  - subst key. by rewrite lookup_delete_eq.
  - by rewrite lookup_delete_ne.
Qed.

Lemma collectExpired_empty_bucket now m :
  bucket m (Itoa (Time_Second now)) = [] → collectExpired now m = [].
Proof. unfold collectExpired. by intros ->. Qed.

(** X1. A successful [CreateSession] or any [UpdateSessionData] for one
    ID leaves the payload, the index entry and the read result of every
    other ID as they were. *)
Theorem writes_leave_other_sessions
    sID sID' (data : gmap string V) now m :
  sID' ≠ sID →
  let created := snd (CreateSession (sID, None) now m) in
  let updated := snd (UpdateSessionData sID data now m) in
  (sessions created !! sID' = sessions m !! sID' ∧
   sessionExpirations created !! sID' = sessionExpirations m !! sID' ∧
   fst (GetSessionData sID' created) = fst (GetSessionData sID' m)) ∧
  (sessions updated !! sID' = sessions m !! sID' ∧
   sessionExpirations updated !! sID' = sessionExpirations m !! sID' ∧
   fst (GetSessionData sID' updated) = fst (GetSessionData sID' m)).
Proof.
  intros Hne created updated. subst created updated.
  assert (∀ m1 : SessionManager V,
            sessions m1 !! sID' = sessions m !! sID' →
            fst (GetSessionData sID' m1) = fst (GetSessionData sID' m))
    as Hget.
  { intros m1 Hm1. unfold GetSessionData. rewrite Hm1.
    by destruct (sessions m !! sID'). }
  split.
  - assert (sessions (snd (CreateSession (sID, None) now m)) !! sID'
            = sessions m !! sID') as Hs
      by (simpl; by rewrite lookup_insert_ne).
    split_and!; [done| |by apply Hget].
    simpl. by rewrite lookup_insert_ne.
  - unfold UpdateSessionData.
    destruct (UpdateSessionData_check sID m); cbn [snd]; [|done].
    assert (sessions (UpdateSessionData_write sID data now m) !! sID'
            = sessions m !! sID') as Hs
      by (simpl; by rewrite lookup_insert_ne).
    split_and!; [done| |by apply Hget].
    simpl. by rewrite lookup_insert_ne.
Qed.

(** Whatever the buckets hold, a run of sweeps whose clock readings
    all lie at least 10 ms before a session's index entry keeps the
    session and its entry. *)
Lemma sweeps_keep_unexpired (ticks : list Z) m sID exp :
  sessionExpirations m !! sID = Some exp →
  Forall (λ now, now + 10 * Millisecond <= exp) ticks →
  sessions (sweeps ticks m) !! sID = sessions m !! sID ∧
  sessionExpirations (sweeps ticks m) !! sID = Some exp.
Proof.
  revert m. induction ticks as [|now ticks IH]; intros m Hexp Hall.
  - done.
  - apply Forall_cons in Hall as [Hnow Hall].
    destruct (sweep_keeps_unexpired now m sID exp Hexp Hnow) as [Hs He].
    unfold sweeps in *. cbn [foldl].
    destruct (IH (sweep now m) He Hall) as [-> ->]. by rewrite Hs.
Qed.

Lemma write_then_sweeps sID (data : gmap string V) T (ticks : list Z) m :
  Forall (λ now, now + 10 * Millisecond <= T + ttlSeconds * Second) ticks →
  sessions (sweeps ticks (UpdateSessionData_write sID data T m)) !! sID
    = Some (mkSession data) ∧
  sessionExpirations (sweeps ticks (UpdateSessionData_write sID data T m))
    !! sID = Some (T + ttlSeconds * Second).
Proof.
  intros Hall.
  destruct (sweeps_keep_unexpired ticks
              (UpdateSessionData_write sID data T m) sID
              (T + ttlSeconds * Second)) as [-> ->]; [| done |].
  - simpl. by rewrite lookup_insert_eq.
  - split; [|done]. simpl. by rewrite lookup_insert_eq.
Qed.

(** X2. After a successful [CreateSession] or [UpdateSessionData] at
    [T], a run of sweeps whose clock readings all lie at or before
    T + TTL - 10 ms never removes the session: it stays readable with
    the payload just written, whatever the buckets hold. *)
Theorem written_session_survives_early_sweeps
    sID (data : gmap string V) T (ticks : list Z) m :
  Forall (λ now, now + 10 * Millisecond <= T + ttlSeconds * Second) ticks →
  fst (GetSessionData sID
         (sweeps ticks (snd (CreateSession (sID, None) T m))))
    = (Some ∅, None) ∧
  (is_Some (sessions m !! sID) →
   fst (GetSessionData sID
          (sweeps ticks (snd (UpdateSessionData sID data T m))))
     = (Some data, None)).
Proof.
  intros Hall. split.
  - destruct (write_then_sweeps sID ∅ T ticks m Hall) as [Hs _].
    unfold GetSessionData, CreateSession; cbn [snd].
    unfold UpdateSessionData_write in Hs. by rewrite Hs.
  - intros Hin. unfold UpdateSessionData, UpdateSessionData_check.
    rewrite bool_decide_eq_true_2 by done. cbn [snd].
    destruct (write_then_sweeps sID data T ticks m Hall) as [Hs _].
    unfold GetSessionData. by rewrite Hs.
Qed.

(** X3. Sweeps only take away: a session or index entry found after
    any run of sweeps was there, unchanged, before it, and every bucket
    is afterwards either as it was or gone. *)
Theorem sweeps_only_remove (ticks : list Z) m sID :
  (∀ session, sessions (sweeps ticks m) !! sID = Some session →
              sessions m !! sID = Some session) ∧
  (∀ exp, sessionExpirations (sweeps ticks m) !! sID = Some exp →
          sessionExpirations m !! sID = Some exp) ∧
  (∀ key, bucket (sweeps ticks m) key = bucket m key ∨
          bucket (sweeps ticks m) key = []).
Proof.
  revert m. induction ticks as [|now ticks IH]; intros m.
  - split_and!; auto.
  - unfold sweeps in *. cbn [foldl].
    destruct (IH (sweep now m)) as (Hs & He & Hb). split_and!.
    + intros session Hin. apply Hs in Hin. unfold sweep in Hin.
      rewrite deleteExpired_sessions in Hin. by case_decide.
    + intros exp Hin. apply He in Hin. unfold sweep in Hin.
      rewrite deleteExpired_expirations in Hin. by case_decide.
    + intros key. destruct (Hb key) as [Heq|Heq]; [|by right].
      rewrite Heq, sweep_bucket. case_decide; auto.
Qed.

(** X4. Running the sweep of one instant twice gives the manager that
    running it once gives. *)
Theorem sweep_idempotent now m : sweep now (sweep now m) = sweep now m.
Proof.
  assert (collectExpired now (sweep now m) = []) as Hnone.
  { apply collectExpired_empty_bucket. rewrite sweep_bucket.
    by rewrite decide_True. }
  unfold sweep at 1. rewrite Hnone. unfold deleteExpired; simpl.
  apply manager_eq; simpl; [done|done|].
  rewrite delete_loop_checks. by rewrite delete_delete_eq.
Qed.

(** X5. A tick whose key has no bucket changes nothing at all; in
    particular the worker never disturbs a manager without buckets. *)
Theorem sweep_without_bucket now m :
  expirationChecks m !! Itoa (Time_Second now) = None →
  sweep now m = m.
Proof.
  intros Hnone.
  assert (collectExpired now m = []) as Hcol.
  { apply collectExpired_empty_bucket. unfold bucket. by rewrite Hnone. }
  unfold sweep. rewrite Hcol. unfold deleteExpired; simpl.
  apply manager_eq; simpl; [done|done|]. by apply delete_id.
Qed.

(** ** Reclamation in the expiration second *)



(** X7. A new session whose ID no bucket names yet, created at [T],
    is not removed by a sweep that has the seconds component of
    T + TTL but comes at or before T + TTL - 10 ms; that sweep drops
    the session's only bucket entry, and no run of later sweeps, at
    whatever instants, removes the session either. *)
Theorem session_swept_early_stays sID T now (later : list Z) m :
  unfiled sID m →
  Time_Second now = Time_Second (T + ttlSeconds * Second) →
  now + 10 * Millisecond <= T + ttlSeconds * Second →
  let m' := sweeps (now :: later) (snd (CreateSession (sID, None) T m)) in
  fst (GetSessionData sID m') = (Some ∅, None) ∧
  sessionExpirations m' !! sID = Some (T + ttlSeconds * Second) ∧
  unfiled sID (sweep now (snd (CreateSession (sID, None) T m))).
Proof.
  intros Hun Hkey Hearly m'. subst m'.
  unfold CreateSession; cbn [snd].
  set (m1 := updateSessionExpiration T sID _).
  assert (sessionExpirations m1 !! sID = Some (T + ttlSeconds * Second))
    as Hexp by (simpl; by rewrite lookup_insert_eq).
  assert (sessions m1 !! sID = Some (mkSession ∅)) as Hses
    by (simpl; by rewrite lookup_insert_eq).
  destruct (sweep_keeps_unexpired now m1 sID _ Hexp Hearly) as [Hs He].
  assert (unfiled sID (sweep now m1)) as Hun'.
  { intros key. rewrite sweep_bucket. case_decide as Hk.
    - apply not_elem_of_nil.
    - unfold m1. rewrite updateSessionExpiration_bucket.
      rewrite decide_False by (by rewrite <- Hkey).
      apply (Hun key). }
  unfold sweeps. cbn [foldl]. fold (sweeps later (sweep now m1)).
  destruct (sweeps_keep_unfiled later (sweep now m1) sID Hun')
    as [Hs' He'].
  unfold GetSessionData. rewrite Hs', He', Hs, He, Hses. done.
Qed.

(** ** Keeping a session alive *)

(** X8. A client that updates a present session round after round,
    each time before the worker's clock passes the previous
    expiration less 10 ms, never gets [ErrSessionNotFound], and the
    session ends up holding the last payload sent (its old payload if
    there was no round). *)
Theorem renewals_keep_alive
    sID (rounds : list (Z * gmap string V * list Z)) m session :
  sessions m !! sID = Some session →
  Forall (λ r, Forall (λ now, now + 10 * Millisecond
                              <= r.1.1 + ttlSeconds * Second) r.2)
         rounds →
  Forall (λ err, err = None) (fst (renewals sID rounds m)) ∧
  length (fst (renewals sID rounds m)) = length rounds ∧
  fst (GetSessionData sID (snd (renewals sID rounds m)))
    = (Some (default (Data session) (last ((λ r, r.1.2) <$> rounds))),
       None).
Proof.
  revert m session.
  induction rounds as [|[[T data] ticks] rounds IH];
    intros m session Hin Hall.
  - simpl. split_and!; [done|done|]. unfold GetSessionData. by rewrite Hin.
  - apply Forall_cons in Hall as [Hticks Hall]. simpl in Hticks.
    cbn [renewals]. unfold UpdateSessionData, UpdateSessionData_check.
    rewrite bool_decide_eq_true_2 by eauto.
    destruct (write_then_sweeps sID data T ticks m Hticks) as [Hs _].
    destruct (IH _ _ Hs Hall) as (IH1 & IH2 & IH3).
    destruct (renewals sID rounds _) as [errs m2]. simpl in *.
    split_and!; [by constructor|by rewrite IH2|].
    rewrite IH3. rewrite last_cons.
    by destruct (last _).
Qed.

(** ** The keys of the bucket map *)

Lemma updateSessionExpiration_keys now sID m :
  keys_are_seconds m → keys_are_seconds (updateSessionExpiration now sID m).
Proof.
  intros Hm key. simpl. rewrite lookup_insert_is_Some'.
  intros [<-|Hold]; [|by apply Hm].
  eexists. split; [apply Time_Second_range|done].
Qed.

Lemma deleteExpired_keys now (ids : list string) m :
  keys_are_seconds m → keys_are_seconds (deleteExpired now ids m).
Proof.
  intros Hm key. rewrite deleteExpired_checks, lookup_delete_is_Some.
  intros [_ Hold]. by apply Hm.
Qed.

Lemma step_keys (a : action V) (s s' : System V) :
  step a s = Some s' →
  keys_are_seconds (store s) → keys_are_seconds (store s').
Proof.
  destruct a as [[sID [e|]] now|sID|sID data|i now|now|]; simpl;
    intros Hs Hm.
  - by injection Hs as <-.
  - injection Hs as <-. cbn [store].
    by apply updateSessionExpiration_keys.
  - injection Hs as <-. simpl. by rewrite GetSessionData_unchanged.
  - by injection Hs as <-.
  - destruct (updaters s !! i) as [[sID data]|]; [|done].
    injection Hs as <-. cbn [store]. unfold UpdateSessionData_write.
    by apply updateSessionExpiration_keys.
  - destruct (worker s); [done|]. by injection Hs as <-.
  - destruct (worker s) as [[now ids]|]; [|done].
    injection Hs as <-. by apply deleteExpired_keys.
Qed.

Lemma keys_are_seconds_size m :
  keys_are_seconds m → (size (expirationChecks m) ≤ 60)%nat.
Proof.
  intros Hm. rewrite <- (size_dom (D := gset string)).
  set (all := list_to_set (Itoa <$> seqZ 0 60) : gset string).
  assert (size all = 60%nat) as <-.
  { unfold all. rewrite size_list_to_set.
    - by rewrite length_fmap, length_seqZ.
    - apply NoDup_fmap_2; [|apply NoDup_seqZ].
      intros i j. apply Itoa_inj. }
  apply subseteq_size. intros key Hkey.
  apply elem_of_dom, Hm in Hkey as (i & Hi & ->).
  apply elem_of_list_to_set, list_elem_of_fmap_2, elem_of_seqZ. lia.
Qed.

(** X9. Under every schedule of critical sections, each key of the
    bucket map is the decimal string of a number from 0 to 59, so the
    map never has more than 60 buckets. *)
Theorem reachable_bucket_keys (s : System V) :
  reachable s →
  keys_are_seconds (store s) ∧
  (size (expirationChecks (store s)) ≤ 60)%nat.
Proof.
  intros [trace Hex].
  assert (keys_are_seconds (store s)) as Hkeys.
  { assert (keys_are_seconds (store (@init V))) as Hinit.
    { intros key [x Hx]. simpl in Hx. by rewrite lookup_empty in Hx. }
    revert Hex Hinit. generalize (@init V).
    induction trace as [|a trace IH]; intros s0; simpl.
    - by intros [= <-].
    - destruct (step a s0) as [s1|] eqn:Hstep; [|done].
      intros Hex Hs0. eapply IH; [done|]. by eapply step_keys. }
  split; [done|]. by apply keys_are_seconds_size.
Qed.

(** ** An update caught between its two critical sections *)

(** X10. When a sweep deletes a session after [UpdateSessionData] has
    passed its existence check but before its write, the write puts
    the session back: on the schedule check, collect, delete, write the
    session is gone after the sweep and is then readable again with
    the new payload, with an index entry and a bucket entry of its own,
    and the two key sets still agree. *)
Theorem update_write_recreates
    sID (data : gmap string V) now now' (s : System V) :
  worker s = None →
  UpdateSessionData_check sID (store s) = true →
  sID ∈ collectExpired now (store s) →
  ∃ s' : System V,
    exec [AUpdateCheck sID data; ACollect now; ADelete;
          AUpdateWrite (length (updaters s)) now'] s = Some s' ∧
    store s'
      = UpdateSessionData_write sID data now' (sweep now (store s)) ∧
    fst (GetSessionData sID (sweep now (store s)))
      = (None, Some ErrSessionNotFound) ∧
    fst (GetSessionData sID (store s')) = (Some data, None) ∧
    sessionExpirations (store s') !! sID
      = Some (now' + ttlSeconds * Second) ∧
    sID ∈ bucket (store s')
            (Itoa (Time_Second (now' + ttlSeconds * Second))) ∧
    (consistent (store s) → consistent (store s')).
Proof.
  intros Hworker Hcheck Hin. eexists. split.
  { cbn [exec step store worker updaters]. rewrite Hcheck, Hworker.
    cbn [exec step store worker updaters].
    rewrite list_lookup_middle by done. reflexivity. }
  cbn [store]. split_and!.
  - done.
  - unfold GetSessionData, sweep. rewrite deleteExpired_sessions.
    by rewrite decide_True.
  - unfold GetSessionData; simpl. by rewrite lookup_insert_eq.
  - simpl. by rewrite lookup_insert_eq.
  - unfold UpdateSessionData_write.
    rewrite updateSessionExpiration_bucket, decide_True by done.
    apply elem_of_app. right. by apply list_elem_of_singleton.
  - intros Hm. apply UpdateSessionData_write_consistent.
    by apply sweep_consistent.
Qed.

End More.

(** ** [main] *)

(** X11. [main] stops at its first [log.Fatal] when [MakeSessionID]
    fails.  When it succeeds and every tick of the worker in between
    comes at least 10 ms before the expiration then in force, [main]
    logs the new ID, the update, and exactly the payload it stored. *)
Theorem main_logs sID (e : error) now1 (ticks1 : list Z) now2
    (ticks2 : list Z) :
  Forall (λ now, now + 10 * Millisecond <= now1 + ttlSeconds * Second)
         ticks1 →
  Forall (λ now, now + 10 * Millisecond <= now2 + ttlSeconds * Second)
         ticks2 →
  main (sID, Some e) now1 ticks1 now2 ticks2 = [Fatal e] ∧
  main (sID, None) now1 ticks1 now2 ticks2
    = [Println_created sID; Println_updated;
       Println_data
         (Some {[ "website"%string := "longhoang.de"%string ]})].
Proof.
  intros Hall1 Hall2. split; [done|].
  unfold main, CreateSession. cbn [fst snd].
  destruct (write_then_sweeps sID (∅ : gmap string string) now1 ticks1
              NewSessionManager Hall1) as [Hs1 _].
  unfold UpdateSessionData_write in Hs1.
  set (m1 := sweeps ticks1 _) in *.
  unfold UpdateSessionData, UpdateSessionData_check.
  rewrite bool_decide_eq_true_2 by (rewrite Hs1; eauto).
  destruct (write_then_sweeps sID
              {[ "website"%string := "longhoang.de"%string ]}
              now2 ticks2 m1 Hall2) as [Hs2 _].
  unfold GetSessionData. by rewrite Hs2.
Qed.

(** ** Instances *)

Lemma writes_leave_other_sessions_witness :
  "s2"%string ≠ "s1"%string ∧
  fst (GetSessionData "s2"
         (snd (UpdateSessionData "s1" (∅ : gmap string string) t0
                 after_create)))
    = fst (GetSessionData "s2" after_create).
Proof.
  assert ("s2"%string ≠ "s1"%string) as Hne by discriminate.
  split; [exact Hne|].
  exact (proj2 (proj2 (proj2
    (writes_leave_other_sessions "s1" "s2" (∅ : gmap string string)
       t0 after_create Hne)))).
Defined.

Lemma written_session_survives_early_sweeps_witness :
  Forall (λ now, now + 10 * Millisecond <= created_at + ttlSeconds * Second)
         [tick_at 1; tick_at 2] ∧
  fst (GetSessionData "s1"
         (sweeps [tick_at 1; tick_at 2]
            (snd (CreateSession ("s1"%string, None) created_at
                    (@NewSessionManager string)))))
    = (Some ∅, None).
Proof.
  assert (Forall (λ now, now + 10 * Millisecond
                         <= created_at + ttlSeconds * Second)
                 [tick_at 1; tick_at 2]) as Hall
    by (repeat constructor; by vm_compute).
  split; [exact Hall|].
  exact (proj1 (written_session_survives_early_sweeps "s1"
                  (∅ : gmap string string) created_at
                  [tick_at 1; tick_at 2] NewSessionManager Hall)).
Defined.

Lemma sweep_without_bucket_witness :
  expirationChecks (@NewSessionManager string) !! Itoa (Time_Second t0)
    = None ∧
  sweep t0 (@NewSessionManager string) = NewSessionManager.
Proof.
  assert (expirationChecks (@NewSessionManager string)
            !! Itoa (Time_Second t0) = None) as Hnone
    by (vm_compute; reflexivity).
  split; [exact Hnone|].
  exact (sweep_without_bucket t0 NewSessionManager Hnone).
Defined.


Lemma session_swept_early_stays_witness :
  unfiled "s1" (@NewSessionManager string) ∧
  Time_Second (tick_at 5) = Time_Second (created_at + ttlSeconds * Second) ∧
  tick_at 5 + 10 * Millisecond <= created_at + ttlSeconds * Second ∧
  fst (GetSessionData "s1"
         (sweeps [tick_at 5; tick_at 6; tick_at 7; tick_at 65]
            (snd (CreateSession ("s1"%string, None) created_at
                    (@NewSessionManager string)))))
    = (Some ∅, None).
Proof.
  assert (unfiled "s1" (@NewSessionManager string)) as Hun.
  { intros key. unfold bucket; simpl. rewrite lookup_empty.
    apply not_elem_of_nil. }
  assert (Time_Second (tick_at 5)
          = Time_Second (created_at + ttlSeconds * Second)) as Hkey
    by (vm_compute; reflexivity).
  assert (tick_at 5 + 10 * Millisecond
          <= created_at + ttlSeconds * Second) as Hearly
    by (by vm_compute).
  split_and!; [exact Hun|exact Hkey|exact Hearly|].
  exact (proj1 (session_swept_early_stays "s1" created_at (tick_at 5)
                  [tick_at 6; tick_at 7; tick_at 65]
                  NewSessionManager Hun Hkey Hearly)).
Defined.

Lemma renewals_keep_alive_witness :
  sessions after_create !! "s1"%string = Some (mkSession ∅) ∧
  Forall (λ err, err = None)
    (fst (renewals "s1"
            [(created_at + 3 * Second, {[ "k"%string := "v"%string ]},
              [tick_at 4; tick_at 5; tick_at 6])]
            after_create)).
Proof.
  assert (sessions after_create !! "s1"%string = Some (mkSession ∅))
    as Hin by (vm_compute; reflexivity).
  assert (Forall (λ r : Z * gmap string string * list Z,
                    Forall (λ now, now + 10 * Millisecond
                                   <= r.1.1 + ttlSeconds * Second) r.2)
            [(created_at + 3 * Second, {[ "k"%string := "v"%string ]},
              [tick_at 4; tick_at 5; tick_at 6])]) as Hall
    by (repeat constructor; by vm_compute).
  split; [exact Hin|].
  exact (proj1 (renewals_keep_alive "s1" _ after_create _ Hin Hall)).
Defined.

Lemma reachable_bucket_keys_witness :
  reachable (mkSystem after_create None []) ∧
  (size (expirationChecks after_create) ≤ 60)%nat.
Proof.
  assert (reachable (mkSystem after_create None [])) as Hreach
    by (exists [ACreate ("s1"%string, None) created_at]; reflexivity).
  split; [exact Hreach|].
  exact (proj2 (reachable_bucket_keys _ Hreach)).
Defined.

Lemma update_write_recreates_witness :
  worker (mkSystem after_create None []) = None ∧
  UpdateSessionData_check "s1" after_create = true ∧
  "s1"%string
    ∈ collectExpired (created_at + ttlSeconds * Second) after_create ∧
  ∃ s' : System string,
    exec [AUpdateCheck "s1" {[ "k"%string := "v"%string ]};
          ACollect (created_at + ttlSeconds * Second); ADelete;
          AUpdateWrite 0 (created_at + ttlSeconds * Second)]
         (mkSystem after_create None []) = Some s' ∧
    fst (GetSessionData "s1" (store s'))
      = (Some {[ "k"%string := "v"%string ]}, None).
Proof.
  assert (UpdateSessionData_check "s1" after_create = true) as Hcheck
    by (vm_compute; reflexivity).
  assert ("s1"%string
            ∈ collectExpired (created_at + ttlSeconds * Second)
                after_create) as Hin.
  { replace (collectExpired (created_at + ttlSeconds * Second)
               after_create) with ["s1"%string]
      by (vm_compute; reflexivity).
    by left. }
  split_and!; [reflexivity|exact Hcheck|exact Hin|].
  destruct (update_write_recreates "s1" {[ "k"%string := "v"%string ]}
              (created_at + ttlSeconds * Second)
              (created_at + ttlSeconds * Second)
              (mkSystem after_create None []) eq_refl Hcheck Hin)
    as (s' & Hexec & _ & _ & Hget & _).
  exists s'. split; [exact Hexec|exact Hget].
Defined.

Lemma main_logs_witness :
  Forall (λ now, now + 10 * Millisecond <= t0 + ttlSeconds * Second) [] ∧
  Forall (λ now, now + 10 * Millisecond
                 <= t0 + 1000 + ttlSeconds * Second) [tick_at 1] ∧
  main ("s1"%string, None) t0 [] (t0 + 1000) [tick_at 1]
    = [Println_created "s1"; Println_updated;
       Println_data
         (Some {[ "website"%string := "longhoang.de"%string ]})].
Proof.
  assert (Forall (λ now, now + 10 * Millisecond
                         <= t0 + ttlSeconds * Second) []) as Hall1
    by constructor.
  assert (Forall (λ now, now + 10 * Millisecond
                         <= t0 + 1000 + ttlSeconds * Second)
                 [tick_at 1]) as Hall2
    by (repeat constructor; by vm_compute).
  split_and!; [exact Hall1|exact Hall2|].
  exact (proj2 (main_logs "s1" ErrSessionNotFound t0 [] (t0 + 1000)
                  [tick_at 1] Hall1 Hall2)).
Defined.

End SessionCleanerMore.

(** * Further properties of [HandleRequest] *)

Module LimitServiceTimeMore.

Import LimitServiceTime LimitServiceTimeProofs.
Local Open Scope Z_scope.

Lemma tickerLoop_sent (n j : nat) (u u' : User) :
  tickerLoop n u = (u', true) → tickerLoop (n + j) u = (u', true).
Proof.
  revert u. induction n as [|n IH]; intros u; simpl; [done|].
  destruct (tick u) as [u1 []]; [done|]. apply IH.
Qed.

Lemma tickerLoop_premium (n : nat) (u : User) :
  IsPremium u = true →
  snd (tickerLoop n u) = false ∧
  (0 <= TimeUsed u → TimeUsed u + Z.of_nat n < 2 ^ 63 →
   fst (tickerLoop n u) = mkUser (ID u) true (TimeUsed u + Z.of_nat n)).
Proof.
  revert u. induction n as [|n IH]; intros [id p used]; simpl; intros ->.
  - split; [done|]. intros _ _. by rewrite Z.add_0_r.
  - unfold tick; simpl.
    destruct (IH (mkUser id true (wrap64 (used + 1))) eq_refl) as [Hk Hu].
    split; [done|]. intros Hlo Hhi. simpl in Hu.
    rewrite wrap64_small in Hu |- * by lia.
    rewrite Hu by lia. f_equal. lia.
Qed.

Lemma horizon_finished (n k : nat) : (n `min` (n + k))%nat = n.
Proof. lia. Qed.

(** X12. A free user with [TimeUsed] below 9 whose process never ends
    waits for exactly 9 - [TimeUsed] ticks: before that tick
    [HandleRequest] is still blocked and the total has grown by one
    per tick; from that tick on it has returned, with the total at
    9. *)
Theorem free_user_countdown (u : User) :
  IsPremium u = false →
  0 <= TimeUsed u < maxFreeProcessingTimeSeconds - 1 →
  let left := Z.to_nat (maxFreeProcessingTimeSeconds - 1 - TimeUsed u) in
  (∀ t : nat, (t < left)%nat →
     HandleRequest None t u
     = (None, mkUser (ID u) false (TimeUsed u + Z.of_nat t))) ∧
  (∀ j : nat,
     HandleRequest None (left + j) u
     = (Some true,
        mkUser (ID u) false (maxFreeProcessingTimeSeconds - 1))).
Proof.
  intros Hfree Hused left. split.
  - intros t Ht. unfold HandleRequest.
    rewrite tickerLoop_below; [done|done|lia|].
    unfold left in Ht. lia.
  - intros j. unfold HandleRequest.
    rewrite (tickerLoop_sent left j u
               (mkUser (ID u) false (maxFreeProcessingTimeSeconds - 1)));
      [done|].
    apply tickerLoop_cutoff; [done|lia| |]; unfold left; lia.
Qed.

(** X13. A premium user is never cut off by the ticker: with a process
    that never ends [HandleRequest] stays blocked for ever, and as
    long as the counter does not overflow every tick is still added
    to [TimeUsed]. *)
Theorem premium_user_never_cut_off
    (process : option nat) (ticks : nat) (u : User) :
  IsPremium u = true →
  killed process ticks u = false ∧
  fst (HandleRequest None ticks u) = None ∧
  (0 <= TimeUsed u → TimeUsed u + Z.of_nat ticks < 2 ^ 63 →
   snd (HandleRequest None ticks u)
   = mkUser (ID u) true (TimeUsed u + Z.of_nat ticks)).
Proof.
  intros Hp. split_and!.
  - unfold killed. by apply tickerLoop_premium.
  - rewrite HandleRequest_result. unfold killed.
    by destruct (tickerLoop_premium ticks u Hp) as [-> _].
  - intros Hlo Hhi. unfold HandleRequest.
    destruct (tickerLoop_premium ticks u Hp) as [Hk Hu].
    destruct (tickerLoop ticks u) as [u' k]. simpl in *. by apply Hu.
Qed.

(** X14. A free user who has used 8 seconds or more is cut off by the
    first tick of every request, one more second being charged each
    time; a process that returns before the first tick is served in
    full and charged nothing. *)
Theorem exhausted_user_gets_one_tick
    (process : option nat) (ticks : nat) (u : User) :
  IsPremium u = false →
  maxFreeProcessingTimeSeconds - 2 <= TimeUsed u < 2 ^ 63 - 1 →
  HandleRequest (Some 0%nat) ticks u = (Some true, u) ∧
  killed (Some 0%nat) ticks u = false ∧
  ((0 < ticks)%nat → process ≠ Some 0%nat →
   HandleRequest process ticks u
   = (Some true, mkUser (ID u) false (TimeUsed u + 1)) ∧
   killed process ticks u = true).
Proof.
  intros Hfree Hused. split_and!; [done|done|].
  intros Hticks Hproc.
  assert (∀ n : nat, (0 < n)%nat →
            tickerLoop n u
            = (mkUser (ID u) false (TimeUsed u + 1), true)) as Hfirst.
  { intros [|n] Hn; [lia|]. destruct u as [id p used]. simpl in *.
    subst p. unfold tick; simpl.
    unfold maxFreeProcessingTimeSeconds in *.
    rewrite wrap64_small by lia.
    by rewrite bool_decide_eq_true_2 by lia. }
  unfold HandleRequest, killed.
  destruct process as [[|n]|]; [done| |]; by rewrite Hfirst by lia.
Qed.

(** X15. The budget is per user, not per request: two requests of a
    free user that finish on their own and together stay below 9
    seconds both return [true] without a cutoff and leave [TimeUsed]
    raised by the ticks of both. *)
Theorem budget_accumulates (n1 k1 n2 k2 : nat) (u : User) :
  IsPremium u = false →
  0 <= TimeUsed u →
  TimeUsed u + Z.of_nat n1 + Z.of_nat n2
    < maxFreeProcessingTimeSeconds - 1 →
  let first := HandleRequest (Some n1) (n1 + k1) u in
  let second := HandleRequest (Some n2) (n2 + k2) (snd first) in
  fst first = Some true ∧
  killed (Some n1) (n1 + k1) u = false ∧
  fst second = Some true ∧
  killed (Some n2) (n2 + k2) (snd first) = false ∧
  snd second
  = mkUser (ID u) false (TimeUsed u + Z.of_nat n1 + Z.of_nat n2).
Proof.
  intros Hfree Hlo Hhi first second. subst first second.
  unfold HandleRequest, killed. rewrite !horizon_finished.
  rewrite (tickerLoop_below n1 u) by (done || lia). cbn [fst snd].
  rewrite (tickerLoop_below n2) by (simpl; done || lia). cbn [fst snd].
  rewrite !bool_decide_eq_true_2 by lia. done.
Qed.

(** ** Instances *)

Lemma free_user_countdown_witness :
  IsPremium (mkUser 1 false 3) = false ∧
  0 <= TimeUsed (mkUser 1 false 3) < maxFreeProcessingTimeSeconds - 1 ∧
  HandleRequest None 6 (mkUser 1 false 3)
  = (Some true, mkUser 1 false 9).
Proof.
  assert (0 <= TimeUsed (mkUser 1 false 3)
          < maxFreeProcessingTimeSeconds - 1) as Hused
    by (vm_compute; split; [discriminate|reflexivity]).
  split; [reflexivity|]. split; [exact Hused|].
  exact (proj2 (free_user_countdown (mkUser 1 false 3) eq_refl Hused)
           0%nat).
Defined.

Lemma premium_user_never_cut_off_witness :
  IsPremium (mkUser 2 true 40) = true ∧
  killed None 100 (mkUser 2 true 40) = false.
Proof.
  split; [reflexivity|].
  exact (proj1 (premium_user_never_cut_off None 100 (mkUser 2 true 40)
                  eq_refl)).
Defined.

Lemma exhausted_user_gets_one_tick_witness :
  IsPremium (mkUser 3 false 9) = false ∧
  maxFreeProcessingTimeSeconds - 2 <= TimeUsed (mkUser 3 false 9)
    < 2 ^ 63 - 1 ∧
  HandleRequest (Some 0%nat) 4 (mkUser 3 false 9)
  = (Some true, mkUser 3 false 9).
Proof.
  assert (maxFreeProcessingTimeSeconds - 2 <= TimeUsed (mkUser 3 false 9)
          < 2 ^ 63 - 1) as Hused
    by (vm_compute; split; [discriminate|reflexivity]).
  split; [reflexivity|]. split; [exact Hused|].
  exact (proj1 (exhausted_user_gets_one_tick None 4 (mkUser 3 false 9)
                  eq_refl Hused)).
Defined.

Lemma budget_accumulates_witness :
  IsPremium (mkUser 4 false 0) = false ∧
  0 <= TimeUsed (mkUser 4 false 0) ∧
  TimeUsed (mkUser 4 false 0) + Z.of_nat 3 + Z.of_nat 4
    < maxFreeProcessingTimeSeconds - 1 ∧
  fst (HandleRequest (Some 3%nat) (3 + 0) (mkUser 4 false 0)) = Some true.
Proof.
  assert (0 <= TimeUsed (mkUser 4 false 0)) as Hlo by (by vm_compute).
  assert (TimeUsed (mkUser 4 false 0) + Z.of_nat 3 + Z.of_nat 4
          < maxFreeProcessingTimeSeconds - 1) as Hhi
    by (vm_compute; reflexivity).
  split_and!; [reflexivity|exact Hlo|exact Hhi|].
  exact (proj1 (budget_accumulates 3 0 4 0 (mkUser 4 false 0)
                  eq_refl Hlo Hhi)).
Defined.

End LimitServiceTimeMore.

(** * Properties of the graceful shutdown *)

Module GracefulSigintProofs.

Import GracefulSigint.

Lemma start_sound : sound start.
Proof. unfold sound, start; simpl. split_and!; try done. lia. Qed.

Lemma step_sound (s : State) (e : event) : sound s → sound (step s e).
Proof.
  destruct s as [n p k b]. unfold sound, step, capacity; simpl.
  intros (Hn & Hk & Hb & Hc).
  destruct p as [| |code], e; simpl in *;
    try case_bool_decide; try destruct n as [|n]; simpl;
    (split; [lia|]); (split; [lia|]);
    (split; [split; intros Hp;
               first [done | lia | apply Hb in Hp; lia | apply Hb; lia]
            |intros; simplify_eq; (done || eauto)]).
Qed.

Lemma step_counts (s : State) (e : event) :
  pending (step s e) + received (at_ (step s e))
    ≤ pending s + received (at_ s) + sigints [e] ∧
  received (at_ s) ≤ received (at_ (step s e)) ∧
  received (at_ (step s e)) ≤ received (at_ s) + turns [e].
Proof.
  destruct s as [n p k b]. unfold step, capacity; simpl.
  destruct p as [| |code], e; simpl; try lia;
    try (case_bool_decide; simpl; lia);
    destruct n as [|n]; simpl; lia.
Qed.

Lemma sigints_app (l1 l2 : list event) :
  sigints (l1 ++ l2) = sigints l1 + sigints l2.
Proof. induction l1 as [|[] l1 IH]; simpl; lia. Qed.

Lemma turns_app (l1 l2 : list event) :
  turns (l1 ++ l2) = turns l1 + turns l2.
Proof. induction l1 as [|[] l1 IH]; simpl; lia. Qed.

Lemma run_sound (events : list event) (s : State) :
  sound s → sound (run events s).
Proof.
  revert s. induction events as [|e events IH]; intros s Hs; [done|].
  apply IH. by apply step_sound.
Qed.

Lemma run_counts (events : list event) (s : State) :
  pending (run events s) + received (at_ (run events s))
    ≤ pending s + received (at_ s) + sigints events ∧
  received (at_ s) ≤ received (at_ (run events s)) ∧
  received (at_ (run events s)) ≤ received (at_ s) + turns events.
Proof.
  revert s. induction events as [|e events IH]; intros s.
  - simpl. lia.
  - unfold run in *. cbn [foldl].
    specialize (IH (step s e)). pose proof (step_counts s e) as Hstep.
    change (e :: events) with ([e] ++ events).
    rewrite sigints_app, turns_app. lia.
Qed.

Lemma run_app (l1 l2 : list event) (s : State) :
  run (l1 ++ l2) s = run l2 (run l1 s).
Proof. unfold run. apply foldl_app. Qed.

Lemma run_exited (events : list event) (s : State) (code : Z) :
  at_ s = Exited code → run events s = s.
Proof.
  intros Hs. induction events as [|e events IH]; [done|].
  unfold run in *. cbn [foldl].
  replace (step s e) with s; [done|]. unfold step. by rewrite Hs.
Qed.

(** X16. Under every order of signals and scheduler turns: the channel
    never holds more than two signals; [main] starts [proc.Stop()]
    once, at the first signal it receives, and never again; [main]
    calls [os.Exit] only with code 1, after printing its message, and
    only when at least two SIGINTs have arrived and main has run
    twice. *)
Theorem exit_needs_two_sigints (events : list event) :
  let s := run events start in
  pending s ≤ capacity ∧
  stops s ≤ 1 ∧
  (stops s = 1 ↔ at_ s ≠ FirstReceive) ∧
  (at_ s ≠ FirstReceive → 1 ≤ sigints events ∧ 1 ≤ turns events) ∧
  (printed s = true ↔ ∃ code, at_ s = Exited code) ∧
  (∀ code, at_ s = Exited code →
     code = 1%Z ∧ 2 ≤ sigints events ∧ 2 ≤ turns events).
Proof.
  intros s. subst s.
  destruct (run_sound events start start_sound) as (Hn & Hk & Hb & Hc).
  destruct (run_counts events start) as (Hsig & _ & Hturn).
  simpl in Hsig, Hturn.
  assert (stops (run events start) ≤ 1) as Hle
    by (rewrite Hk; destruct (at_ (run events start)); lia).
  split; [done|]. split; [done|]. split.
  { rewrite Hk. destruct (at_ (run events start)); split; try done; lia. }
  split.
  { intros Hne. destruct (at_ (run events start)); simpl in *; [done|lia|lia]. }
  split.
  { rewrite Hb. destruct (at_ (run events start)); simpl;
      (split; [intros; (lia || eauto)|intros [? ?]; (done || lia)]). }
  intros code Hcode. rewrite Hcode in *. simpl in *.
  split; [by apply Hc|lia].
Qed.

(** X17. Whatever happened before, two further SIGINTs followed by two
    turns of the main goroutine take [main] to [os.Exit(1)], the
    shutdown of the process having been started exactly once; nothing
    that comes after the exit changes anything. *)
Theorem two_sigints_exit (before after : list event) :
  let s := run (before ++ [Sigint; Sigint; Main; Main]) start in
  at_ s = Exited 1 ∧
  stops s = 1 ∧
  printed s = true ∧
  run (before ++ [Sigint; Sigint; Main; Main] ++ after) start = s.
Proof.
  intros s. subst s. rewrite !run_app.
  pose proof (run_sound before start start_sound) as Hs1.
  revert Hs1. generalize (run before start). intros s1 Hs1.
  assert (at_ (run [Sigint; Sigint; Main; Main] s1) = Exited 1) as Hexit.
  { destruct Hs1 as (Hn & _ & _ & Hc).
    destruct s1 as [n p k b]. unfold capacity in *; simpl in *.
    destruct p as [| |code].
    - destruct n as [|[|[|n]]]; try lia; reflexivity.
    - destruct n as [|[|[|n]]]; try lia; reflexivity.
    - by rewrite (Hc code eq_refl). }
  destruct (run_sound [Sigint; Sigint; Main; Main] s1 Hs1)
    as (_ & Hk' & Hb' & _).
  rewrite Hexit in Hk', Hb'. simpl in Hk', Hb'.
  split_and!; [done|done|by apply Hb'|].
  by eapply run_exited.
Qed.

End GracefulSigintProofs.
